(** * smm_code_chk: SMM_Code_Chk_En (SMM call-out) protection check

    A shallow embedding of [chipsec/modules/common/smm_code_chk.py].

    The module reads MSR_SMM_FEATURE_CONTROL on every logical CPU, decodes the
    fields LOCK and SMM_Code_Chk_En, classifies each thread and reduces the
    per-thread results to one [ModuleResult].

    The Python methods run against [self.cs] (the chipset accessor), mutate
    [self.res], write to the logger and may raise.  They are embedded in a
    small monad: a state ([Self]) threaded through the calls, a result that
    is a value or a raised exception, and the list of events (register reads,
    register dumps, logger calls) the call emitted. *)

From Stdlib Require Import ZArith List String Bool Lia PeanoNat.
From Stdlib Require Import Permutation.
Import ListNotations.

Open Scope string_scope.
Open Scope list_scope.

(** ** Data model *)

(** Modelled from the spec: [ModuleResult] is declared in
    [chipsec.module_common], which is not part of the sources at hand; the
    spec's Verdict is a closed enumeration with exactly five variants,
    compared for equality only. *)
Inductive ModuleResult : Type :=
| PASSED
| FAILED
| WARNING
| ERROR
| NOTAPPLICABLE.

Definition ModuleResult_eqb (a b : ModuleResult) : bool :=
  match a, b with
  | PASSED, PASSED | FAILED, FAILED | WARNING, WARNING
  | ERROR, ERROR | NOTAPPLICABLE, NOTAPPLICABLE => true
  | _, _ => false
  end.

(** The exceptions the module can meet: the accessor's
    [HWAccessViolationError], Python's [IndexError] (from [results[0]]), and
    any other exception the accessor may raise. *)
Inductive exn : Type :=
| HWAccessViolationError
| IndexError
| OtherException (what : string).

Definition is_HWAccessViolationError (e : exn) : bool :=
  match e with
  | HWAccessViolationError => true
  | _ => false
  end.

Inductive result (A : Type) : Type :=
| Ok (a : A)
| Raise (e : exn).
Arguments Ok {A} a.
Arguments Raise {A} e.

(** Thread ids and the thread count are non-negative Python ints ([nat]);
    register values and field values are Python ints ([Z]). *)
Definition ThreadId := nat.
Definition RegisterValue := Z.
Definition FieldValue := Z.

(** What a call does to the outside world, in order. *)
Inductive event : Type :=
| EvReadRegister (name : string) (cpu_thread : ThreadId)
                 (outcome : result RegisterValue)
| EvPrintRegister (name : string) (regval : RegisterValue)
| EvStartTest (msg : string)
| EvLogFailedCheck (msg : string)
| EvWarn (msg : string)
| EvLogPassedCheck (msg : string).

(** The collaborators behind [self.cs]: the register accessor and the thread
    enumerator.  A read may fail and may change the hardware state [HW]. *)
Record Chipset (HW : Type) : Type := {
  read_register :
    string -> ThreadId -> HW -> result RegisterValue * HW;
  get_register_field : string -> RegisterValue -> string -> FieldValue;
  get_cpu_thread_count : HW -> nat
}.
Arguments read_register {HW} c name cpu_thread h.
Arguments get_register_field {HW} c name regval field.
Arguments get_cpu_thread_count {HW} c h.

(** Modelled from the spec: the default value of [read_register]'s
    [cpu_thread] argument is declared in chipsec's chipset accessor, which is
    not part of the sources at hand; the spec says the probe treats thread 0
    as the representative thread. *)
Definition default_cpu_thread : ThreadId := 0%nat.

Definition MSR_SMM_FEATURE_CONTROL : string := "MSR_SMM_FEATURE_CONTROL".

(** The object state: the hardware behind [self.cs] and the field
    [self.res]. *)
Record Self (HW : Type) : Type := mkSelf {
  hw : HW;
  res : ModuleResult
}.
Arguments mkSelf {HW} hw res.
Arguments hw {HW} s.
Arguments res {HW} s.

(** ** The monad *)

Definition M (HW A : Type) : Type :=
  Self HW -> result A * Self HW * list event.

Definition ret {HW A} (a : A) : M HW A :=
  fun s => (Ok a, s, []).

Definition raise {HW A} (e : exn) : M HW A :=
  fun s => (Raise e, s, []).

Definition bind {HW A B} (m : M HW A) (k : A -> M HW B) : M HW B :=
  fun s =>
    match m s with
    | (Ok a, s1, evs1) =>
        let '(r, s2, evs2) := k a s1 in (r, s2, evs1 ++ evs2)
    | (Raise e, s1, evs1) => (Raise e, s1, evs1)
    end.

Declare Scope py_scope.
Delimit Scope py_scope with py.
Notation "x <- m ;; k" := (bind m (fun x => k))
  (at level 61, m at next level, right associativity) : py_scope.
Notation "m ;; k" := (bind m (fun _ => k))
  (at level 61, right associativity) : py_scope.
Open Scope py_scope.

Definition emit {HW} (ev : event) : M HW unit :=
  fun s => (Ok tt, s, [ev]).

Definition set_res {HW} (r : ModuleResult) : M HW unit :=
  fun s => (Ok tt, mkSelf (hw s) r, []).

Definition get_res {HW} : M HW ModuleResult :=
  fun s => (Ok (res s), s, []).

(** [try: body / except <caught>: handler / else: orelse]. *)
Definition try_except_else {HW A B}
    (body : M HW A) (caught : exn -> bool)
    (handler : M HW B) (orelse : M HW B) : M HW B :=
  fun s =>
    match body s with
    | (Ok _, s1, evs1) =>
        let '(r, s2, evs2) := orelse s1 in (r, s2, evs1 ++ evs2)
    | (Raise e, s1, evs1) =>
        if caught e
        then let '(r, s2, evs2) := handler s1 in (r, s2, evs1 ++ evs2)
        else (Raise e, s1, evs1)
    end.

(** [lst[i]]: raises [IndexError] out of range. *)
Definition getitem {HW A} (lst : list A) (i : nat) : M HW A :=
  match nth_error lst i with
  | Some a => ret a
  | None => raise IndexError
  end.

(** Projections of a finished call. *)
Definition outcome {HW A} (x : result A * Self HW * list event) : result A :=
  fst (fst x).
Definition final {HW A} (x : result A * Self HW * list event) : Self HW :=
  snd (fst x).
Definition events {HW A} (x : result A * Self HW * list event) : list event :=
  snd x.

(** ** The module *)

Section smm_code_chk.

Context {HW : Type}.
Variable cs : Chipset HW.

(** [self.cs.read_register(name, cpu_thread)] *)
Definition cs_read_register (name : string) (cpu_thread : ThreadId)
  : M HW RegisterValue :=
  fun s =>
    let '(r, h) := read_register cs name cpu_thread (hw s) in
    (r, mkSelf h (res s), [EvReadRegister name cpu_thread r]).

(** [self.cs.msr.get_cpu_thread_count()] *)
Definition cs_get_cpu_thread_count : M HW nat :=
  fun s => (Ok (get_cpu_thread_count cs (hw s)), s, []).

(** [is_supported] (lines 17-27) *)
Definition is_supported : M HW bool :=
  try_except_else
    (cs_read_register MSR_SMM_FEATURE_CONTROL default_cpu_thread)
    is_HWAccessViolationError
    (set_res NOTAPPLICABLE ;; ret false)
    (ret true).

(** The decision of lines 36-50 on the two decoded fields. *)
Definition classify (code_chk_en lock : FieldValue) : ModuleResult :=
  if (1 =? code_chk_en)%Z then
    if (1 =? lock)%Z then PASSED else FAILED
  else WARNING.

Definition field_LOCK (regval : RegisterValue) : FieldValue :=
  get_register_field cs MSR_SMM_FEATURE_CONTROL regval "LOCK".

Definition field_SMM_Code_Chk_En (regval : RegisterValue) : FieldValue :=
  get_register_field cs MSR_SMM_FEATURE_CONTROL regval "SMM_Code_Chk_En".

(** The verdict lines 31-50 compute from a register value. *)
Definition verdict_of (regval : RegisterValue) : ModuleResult :=
  classify (field_SMM_Code_Chk_En regval) (field_LOCK regval).

(** [_check_SMM_Code_Chk_En] (lines 29-50) *)
Definition _check_SMM_Code_Chk_En (thread_id : ThreadId)
  : M HW ModuleResult :=
  regval <- cs_read_register MSR_SMM_FEATURE_CONTROL thread_id ;;
  let lock := field_LOCK regval in
  let code_chk_en := field_SMM_Code_Chk_En regval in
  emit (EvPrintRegister MSR_SMM_FEATURE_CONTROL regval) ;;
  ret (classify code_chk_en lock).

(** [range(n)] *)
Definition range (n : nat) : list ThreadId := seq 0 n.

(** The loop of lines 56-57: [results.append(...)] for each [tid]. *)
Fixpoint for_tid_append (tids : list ThreadId) (results : list ModuleResult)
  : M HW (list ModuleResult) :=
  match tids with
  | [] => ret results
  | tid :: rest =>
      r <- _check_SMM_Code_Chk_En tid ;;
      for_tid_append rest (results ++ [r])
  end.

(** Lines 55-57: the per-thread results. *)
Definition collect_results : M HW (list ModuleResult) :=
  n <- cs_get_cpu_thread_count ;;
  for_tid_append (range n) [].

(** [all(_ == results[0] for _ in results)] (line 60): the generator
    evaluates [results[0]] once per element, and [all] stops at the first
    false. *)
Fixpoint all_eq_first (results remaining : list ModuleResult) : M HW bool :=
  match remaining with
  | [] => ret true
  | x :: rest =>
      first <- getitem results 0 ;;
      if ModuleResult_eqb x first then all_eq_first results rest
      else ret false
  end.

Definition msg_start_test : string :=
  "SMM_Code_Chk_En (SMM Call-Out) Protection".
Definition msg_not_same : string :=
  "MSR_SMM_FEATURE_CONTROL does not have the same value across all CPUs".
Definition msg_not_locked : string :=
  "SMM_Code_Chk_En is enabled but not locked down".
Definition msg_not_enabled : string :=
  "[*] SMM_Code_Chk_En is not enabled.
This can happen either because this feature is not supported by the CPU or because the BIOS forgot to enable it.
Please consult the Intel SDM to determine whether or not your CPU supports SMM_Code_Chk_En.".
Definition msg_locked : string :=
  "SMM_Code_Chk_En is enabled and locked down".

(** Lines 65-72: what the logger is told about the common result. *)
Definition report (r : ModuleResult) : event :=
  if ModuleResult_eqb r ERROR then EvLogFailedCheck msg_not_locked
  else if ModuleResult_eqb r WARNING then EvWarn msg_not_enabled
  else EvLogPassedCheck msg_locked.

(** Lines 59-74: the unanimity check and the report. *)
Definition aggregate (results : list ModuleResult) : M HW ModuleResult :=
  same <- all_eq_first results results ;;
  if negb same then
    emit (EvLogFailedCheck msg_not_same) ;;
    ret ERROR
  else
    r <- getitem results 0 ;;
    emit (report r) ;;
    ret r.

(** [check_SMM_Code_Chk_En] (lines 52-74) *)
Definition check_SMM_Code_Chk_En : M HW ModuleResult :=
  emit (EvStartTest msg_start_test) ;;
  results <- collect_results ;;
  aggregate results.

(** [run] (lines 80-81) *)
Definition run : M HW ModuleResult := check_SMM_Code_Chk_En.

(** Modelled from the spec: the caller of [is_supported] and [run] is
    chipsec's module loader, which is not part of the sources at hand; the
    spec's control flow is Gate, then (if supported) the aggregation, and on
    not-supported the terminal verdict is the one the gate recorded. *)
Definition run_module : M HW ModuleResult :=
  supported <- is_supported ;;
  if supported then run else get_res.

End smm_code_chk.

(** ** A sample platform

    The hardware state is a table with one entry per logical CPU: the value
    of MSR_SMM_FEATURE_CONTROL on that thread, or the exception a read of it
    raises.  LOCK is bit 0 and SMM_Code_Chk_En is bit 2 of the register. *)

Definition table_read_register (name : string) (cpu_thread : ThreadId)
    (h : list (result RegisterValue)) :=
  (nth cpu_thread h (Raise (OtherException "no such cpu thread")), h).

Definition table_get_register_field (name : string) (regval : RegisterValue)
    (field : string) : FieldValue :=
  if String.eqb field "LOCK" then Z.land (Z.shiftr regval 0) 1
  else if String.eqb field "SMM_Code_Chk_En" then Z.land (Z.shiftr regval 2) 1
  else 0%Z.

Definition table_chipset : Chipset (list (result RegisterValue)) :=
  {| read_register := table_read_register;
     get_register_field := table_get_register_field;
     get_cpu_thread_count := fun h => List.length h |}.

(** Register values for (SMM_Code_Chk_En, LOCK) = (1,1), (1,0), (0,0). *)
Definition regval_en_lock : RegisterValue := 5%Z.
Definition regval_en_nolock : RegisterValue := 4%Z.
Definition regval_noen_nolock : RegisterValue := 0%Z.

Definition platform (table : list (result RegisterValue))
  : Self (list (result RegisterValue)) :=
  mkSelf table PASSED.

Definition zero_thread_platform := platform [].

(** The spec's scenarios: four threads enabled and locked; four threads
    enabled and not locked; two threads that disagree; one thread not
    enabled; a probe that is refused. *)
Definition scenario_A :=
  platform [Ok regval_en_lock; Ok regval_en_lock;
            Ok regval_en_lock; Ok regval_en_lock].
Definition scenario_B :=
  platform [Ok regval_en_nolock; Ok regval_en_nolock;
            Ok regval_en_nolock; Ok regval_en_nolock].
Definition scenario_C :=
  platform [Ok regval_en_lock; Ok regval_en_nolock].
Definition scenario_D :=
  platform [Ok regval_noen_nolock].
Definition scenario_E :=
  platform [Raise HWAccessViolationError; Raise HWAccessViolationError].

(** A platform whose probe succeeds and whose thread 1 then refuses the
    read. *)
Definition late_failure :=
  platform [Ok regval_en_lock; Raise HWAccessViolationError;
            Ok regval_en_lock].

(** ** Observations on an event list *)

(** The register reads among the events, in order: thread and outcome. *)
Fixpoint reads (evs : list event)
  : list (ThreadId * result RegisterValue) :=
  match evs with
  | [] => []
  | EvReadRegister _ tid out :: rest => (tid, out) :: reads rest
  | _ :: rest => reads rest
  end.

Definition is_read_of (name : string) (tid : ThreadId) (ev : event) : bool :=
  match ev with
  | EvReadRegister n t _ => String.eqb n name && Nat.eqb t tid
  | _ => false
  end.

(** How many times register [name] of thread [tid] was read. *)
Definition count_reads (name : string) (tid : ThreadId) (evs : list event)
  : nat :=
  List.length (filter (is_read_of name tid) evs).

(** What one successful call of the evaluator emits (lines 30 and 34): the
    read of the thread's register and the dump of the value read. *)
Definition evaluated (p : ThreadId * RegisterValue) : list event :=
  [EvReadRegister MSR_SMM_FEATURE_CONTROL (fst p) (Ok (snd p));
   EvPrintRegister MSR_SMM_FEATURE_CONTROL (snd p)].

(** Events of the logger. *)
Definition is_log (ev : event) : bool :=
  match ev with
  | EvReadRegister _ _ _ | EvPrintRegister _ _ => false
  | _ => true
  end.

(** * Properties *)

Lemma ModuleResult_eqb_eq (a b : ModuleResult) :
  ModuleResult_eqb a b = true <-> a = b.
Proof. destruct a, b; simpl; split; congruence. Qed.

Lemma ModuleResult_eqb_refl (a : ModuleResult) : ModuleResult_eqb a a = true.
Proof. now apply ModuleResult_eqb_eq. Qed.

Lemma reads_app (e1 e2 : list event) : reads (e1 ++ e2) = reads e1 ++ reads e2.
Proof.
  induction e1 as [|ev e1 IH]; simpl; [reflexivity|].
  destruct ev; simpl; now rewrite IH.
Qed.

Lemma count_reads_app name tid (e1 e2 : list event) :
  count_reads name tid (e1 ++ e2)
  = (count_reads name tid e1 + count_reads name tid e2)%nat.
Proof. unfold count_reads. now rewrite filter_app, length_app. Qed.

Section bind_laws.

Context {HW A B : Type}.
Variables (m : M HW A) (k : A -> M HW B).

Lemma bind_ok s a s1 e1 :
  m s = (Ok a, s1, e1) ->
  bind m k s = (outcome (k a s1), final (k a s1), e1 ++ events (k a s1)).
Proof.
  intros Hm. unfold bind, outcome, final, events. rewrite Hm.
  now destruct (k a s1) as [[r s2] e2].
Qed.

Lemma bind_raise s e s1 e1 :
  m s = (Raise e, s1, e1) -> bind m k s = (Raise e, s1, e1).
Proof. intros Hm. unfold bind. now rewrite Hm. Qed.

End bind_laws.

Lemma surjective_triple {X Y Z : Type} (x : X * Y * Z) :
  x = (fst (fst x), snd (fst x), snd x).
Proof. now destruct x as [[a b] c]. Qed.

Section evaluator_facts.

Context {HW : Type}.
Variable cs : Chipset HW.

(** A successful read: the evaluator returns the verdict of the value read,
    dumps the register and leaves [self.res] alone. *)
Lemma check_thread_ok tid (s : Self HW) regval h :
  read_register cs MSR_SMM_FEATURE_CONTROL tid (hw s) = (Ok regval, h) ->
  _check_SMM_Code_Chk_En cs tid s
  = (Ok (verdict_of cs regval), mkSelf h (res s),
     [EvReadRegister MSR_SMM_FEATURE_CONTROL tid (Ok regval); EvPrintRegister MSR_SMM_FEATURE_CONTROL regval]).
Proof.
  intros Hr. unfold _check_SMM_Code_Chk_En.
  rewrite (bind_ok _ _ s regval (mkSelf h (res s))
             [EvReadRegister MSR_SMM_FEATURE_CONTROL tid (Ok regval)]).
  - reflexivity.
  - unfold cs_read_register. now rewrite Hr.
Qed.

(** A failed read: the evaluator raises what the read raised. *)
Lemma check_thread_raise tid (s : Self HW) e h :
  read_register cs MSR_SMM_FEATURE_CONTROL tid (hw s) = (Raise e, h) ->
  _check_SMM_Code_Chk_En cs tid s
  = (Raise e, mkSelf h (res s), [EvReadRegister MSR_SMM_FEATURE_CONTROL tid (Raise e)]).
Proof.
  intros Hr. unfold _check_SMM_Code_Chk_En.
  apply bind_raise. unfold cs_read_register. now rewrite Hr.
Qed.

Lemma check_thread_cases tid (s : Self HW) :
  (exists regval h,
      read_register cs MSR_SMM_FEATURE_CONTROL tid (hw s) = (Ok regval, h) /\
      _check_SMM_Code_Chk_En cs tid s
      = (Ok (verdict_of cs regval), mkSelf h (res s),
         [EvReadRegister MSR_SMM_FEATURE_CONTROL tid (Ok regval); EvPrintRegister MSR_SMM_FEATURE_CONTROL regval]))
  \/
  (exists e h,
      read_register cs MSR_SMM_FEATURE_CONTROL tid (hw s) = (Raise e, h) /\
      _check_SMM_Code_Chk_En cs tid s
      = (Raise e, mkSelf h (res s), [EvReadRegister MSR_SMM_FEATURE_CONTROL tid (Raise e)])).
Proof.
  destruct (read_register cs MSR_SMM_FEATURE_CONTROL tid (hw s)) as [[regval|e] h] eqn:Hr.
  - left. exists regval, h. split; [reflexivity|]. now apply check_thread_ok.
  - right. exists e, h. split; [reflexivity|]. now apply check_thread_raise.
Qed.

Lemma classify_cases en lock :
  classify en lock = PASSED /\ en = 1%Z /\ lock = 1%Z \/
  classify en lock = FAILED /\ en = 1%Z /\ lock <> 1%Z \/
  classify en lock = WARNING /\ en <> 1%Z.
Proof.
  unfold classify.
  destruct (Z.eqb_spec 1 en) as [He|He]; [|right; right; split; congruence].
  destruct (Z.eqb_spec 1 lock) as [Hl|Hl].
  - left. repeat split; congruence.
  - right; left. repeat split; congruence.
Qed.

Lemma verdict_of_not_ERROR regval : verdict_of cs regval <> ERROR.
Proof.
  unfold verdict_of.
  destruct (classify_cases (field_SMM_Code_Chk_En cs regval)
              (field_LOCK cs regval)) as [[H _]|[[H _]|[H _]]];
    rewrite H; discriminate.
Qed.

(** The step of the loop at one thread. *)
Lemma for_tid_append_cons tid rest acc (s : Self HW) :
  for_tid_append cs (tid :: rest) acc s
  = match _check_SMM_Code_Chk_En cs tid s with
    | (Ok r, s1, e1) =>
        (outcome (for_tid_append cs rest (acc ++ [r]) s1),
         final (for_tid_append cs rest (acc ++ [r]) s1),
         e1 ++ events (for_tid_append cs rest (acc ++ [r]) s1))
    | (Raise e, s1, e1) => (Raise e, s1, e1)
    end.
Proof.
  simpl for_tid_append.
  destruct (_check_SMM_Code_Chk_En cs tid s) as [[[r|e] s1] e1] eqn:Hc.
  - now rewrite (bind_ok _ _ s r s1 e1 Hc).
  - now rewrite (bind_raise _ _ s e s1 e1 Hc).
Qed.

(** A loop that finishes has read every thread of [tids] once, in order,
    each read succeeded, and the results are the verdicts of the values
    read, appended in that order. *)
Lemma for_tid_append_ok tids : forall acc (s : Self HW) rs s' evs,
  for_tid_append cs tids acc s = (Ok rs, s', evs) ->
  exists vals,
    List.length vals = List.length tids /\
    reads evs = combine tids (map Ok vals) /\
    rs = acc ++ map (verdict_of cs) vals /\
    res s' = res s.
Proof.
  induction tids as [|tid rest IH]; intros acc s rs s' evs Hrun.
  - simpl in Hrun. unfold ret in Hrun. inversion Hrun; subst.
    exists []. simpl. now rewrite app_nil_r.
  - rewrite for_tid_append_cons in Hrun.
    destruct (check_thread_cases tid s)
      as [(v & h & _ & Hc)|(e & h & _ & Hc)]; rewrite Hc in Hrun;
      [|discriminate].
    inversion Hrun as [[Ho Hf He]].
    destruct (IH (acc ++ [verdict_of cs v]) (mkSelf h (res s)) rs s'
                (events (for_tid_append cs rest (acc ++ [verdict_of cs v])
                           (mkSelf h (res s)))))
      as (vals & Hlen & Hreads & Hrs & Hres).
    { rewrite <- Ho, <- Hf.
      apply surjective_triple. }
    exists (v :: vals). simpl. repeat split.
    + now rewrite Hlen.
    + now rewrite Hreads.
    + rewrite Hrs, <- app_assoc. reflexivity.
    + rewrite Hf. exact Hres.
Qed.

(** The loop emits register reads of the threads of [tids] and register
    dumps, nothing else. *)
Lemma for_tid_append_events tids : forall acc (s : Self HW),
  Forall (fun ev => is_log ev = false
                    /\ forall n t o, ev = EvReadRegister n t o ->
                                     n = MSR_SMM_FEATURE_CONTROL /\ In t tids)
         (events (for_tid_append cs tids acc s)).
Proof.
  induction tids as [|tid rest IH]; intros acc s.
  - simpl. constructor.
  - rewrite for_tid_append_cons.
    destruct (check_thread_cases tid s)
      as [(v & h & _ & Hc)|(e & h & _ & Hc)]; rewrite Hc.
    + unfold events at 1. simpl snd.
      constructor; [|constructor].
      * split; [reflexivity|]. intros n t o E. inversion E; subst.
        split; [reflexivity|now left].
      * split; [reflexivity|]. intros n t o E. discriminate.
      * eapply Forall_impl; [|apply IH].
        intros ev [Hl Hr]. split; [exact Hl|].
        intros n t o E. destruct (Hr n t o E). split; [assumption|now right].
    + unfold events. simpl snd. constructor; [|constructor].
      split; [reflexivity|]. intros n t o E. inversion E; subst.
      split; [reflexivity|now left].
Qed.

(** A read that failed during the loop ends the loop with its exception. *)
Lemma for_tid_append_failed_read tids : forall acc (s : Self HW) n t e,
  In (EvReadRegister n t (Raise e)) (events (for_tid_append cs tids acc s)) ->
  outcome (for_tid_append cs tids acc s) = Raise e.
Proof.
  induction tids as [|tid rest IH]; intros acc s n t e Hin.
  - simpl in Hin. contradiction.
  - rewrite for_tid_append_cons in *.
    destruct (check_thread_cases tid s)
      as [(v & h & _ & Hc)|(e' & h & _ & Hc)]; rewrite Hc in *.
    + unfold events in Hin at 1. simpl snd in Hin.
      unfold outcome at 1. simpl fst.
      destruct Hin as [E|[E|Hin]]; try discriminate.
      now apply (IH _ _ n t e).
    + unfold events in Hin. simpl in Hin.
      destruct Hin as [E|[]]. inversion E; subst. reflexivity.
Qed.

End evaluator_facts.

Section aggregator_facts.

Context {HW : Type}.
Variable cs : Chipset HW.

(** With a first entry to compare against, the generator never raises and
    [all] is a plain conjunction. *)
Lemma all_eq_first_cons r0 rs remaining (s : Self HW) :
  all_eq_first (r0 :: rs) remaining s
  = (Ok (forallb (fun x => ModuleResult_eqb x r0) remaining), s, []).
Proof.
  induction remaining as [|x rest IH]; [reflexivity|].
  simpl all_eq_first. unfold getitem. simpl nth_error.
  rewrite (bind_ok _ _ s r0 s []) by reflexivity.
  simpl forallb. destruct (ModuleResult_eqb x r0).
  - now rewrite IH.
  - reflexivity.
Qed.

(** Over no results the check passes without looking at [results[0]], and
    line 64 raises. *)
Lemma aggregate_nil (s : Self HW) :
  aggregate [] s = (Raise IndexError, s, []).
Proof. reflexivity. Qed.

Lemma aggregate_cons r0 rs (s : Self HW) :
  aggregate (r0 :: rs) s
  = if forallb (fun x => ModuleResult_eqb x r0) (r0 :: rs)
    then (Ok r0, s, [report r0])
    else (Ok ERROR, s, [EvLogFailedCheck msg_not_same]).
Proof.
  unfold aggregate.
  rewrite (bind_ok _ _ s _ s [] (all_eq_first_cons r0 rs (r0 :: rs) s)).
  destruct (forallb _ (r0 :: rs)); reflexivity.
Qed.

Lemma forallb_eq_first r0 (l : list ModuleResult) :
  forallb (fun x => ModuleResult_eqb x r0) l = true <-> Forall (eq r0) l.
Proof.
  rewrite forallb_forall, Forall_forall. split; intros H x Hx.
  - symmetry. now apply ModuleResult_eqb_eq, H.
  - apply ModuleResult_eqb_eq. symmetry. now apply H.
Qed.

(** The aggregator never touches the state and never reads a register. *)
Lemma aggregate_pure rs (s : Self HW) :
  final (aggregate rs s) = s /\
  Forall (fun ev => is_log ev = true) (events (aggregate rs s)) /\
  forall s2 : Self HW, outcome (aggregate rs s2) = outcome (aggregate rs s).
Proof.
  destruct rs as [|r0 rs].
  - repeat split. constructor.
  - split; [|split].
    + rewrite aggregate_cons. now destruct (forallb _ _).
    + rewrite aggregate_cons.
      destruct (forallb _ _); repeat constructor.
      now destruct r0.
    + intros s2. rewrite !aggregate_cons. now destruct (forallb _ _).
Qed.

Lemma collect_results_eq (s : Self HW) :
  collect_results cs s
  = for_tid_append cs (range (get_cpu_thread_count cs (hw s))) [] s.
Proof.
  unfold collect_results.
  rewrite (bind_ok _ _ s (get_cpu_thread_count cs (hw s)) s [])
    by reflexivity.
  simpl. apply eq_sym, surjective_triple.
Qed.

(** The whole check in terms of its two halves. *)
Lemma check_run (s : Self HW) :
  check_SMM_Code_Chk_En cs s
  = match collect_results cs s with
    | (Ok rs, s1, e1) =>
        (outcome (aggregate rs s1), s1,
         EvStartTest msg_start_test :: e1 ++ events (aggregate rs s1))
    | (Raise e, s1, e1) => (Raise e, s1, EvStartTest msg_start_test :: e1)
    end.
Proof.
  unfold check_SMM_Code_Chk_En.
  rewrite (bind_ok _ _ s tt s [EvStartTest msg_start_test]) by reflexivity.
  destruct (collect_results cs s) as [[[rs|e] s1] e1] eqn:Hc.
  - rewrite (bind_ok _ _ s rs s1 e1 Hc).
    unfold outcome at 1, final at 1, events at 1. simpl.
    now destruct (aggregate_pure rs s1) as [-> _].
  - now rewrite (bind_raise _ _ s e s1 e1 Hc).
Qed.

Lemma collect_results_length (s : Self HW) rs s1 e1 :
  collect_results cs s = (Ok rs, s1, e1) ->
  List.length rs = get_cpu_thread_count cs (hw s).
Proof.
  rewrite collect_results_eq. intros Hc.
  destruct (for_tid_append_ok cs _ _ _ _ _ _ Hc) as (vals & Hlen & _ & -> & _).
  simpl. rewrite length_map, Hlen. unfold range. apply length_seq.
Qed.

End aggregator_facts.

Section gate_facts.

Context {HW : Type}.
Variable cs : Chipset HW.

(** The gate, by the outcome of its probe read. *)
Lemma is_supported_run (s : Self HW) :
  is_supported cs s
  = match read_register cs MSR_SMM_FEATURE_CONTROL default_cpu_thread (hw s)
    with
    | (Ok v, h) =>
        (Ok true, mkSelf h (res s),
         [EvReadRegister MSR_SMM_FEATURE_CONTROL default_cpu_thread (Ok v)])
    | (Raise e, h) =>
        if is_HWAccessViolationError e
        then (Ok false, mkSelf h NOTAPPLICABLE,
              [EvReadRegister MSR_SMM_FEATURE_CONTROL default_cpu_thread
                 (Raise e)])
        else (Raise e, mkSelf h (res s),
              [EvReadRegister MSR_SMM_FEATURE_CONTROL default_cpu_thread
                 (Raise e)])
    end.
Proof.
  unfold is_supported, try_except_else, cs_read_register.
  destruct (read_register cs MSR_SMM_FEATURE_CONTROL default_cpu_thread (hw s))
    as [[v|e] h]; [reflexivity|].
  destruct (is_HWAccessViolationError e); reflexivity.
Qed.

Lemma run_module_run (s : Self HW) :
  run_module cs s
  = match is_supported cs s with
    | (Ok true, s1, e1) =>
        (outcome (run cs s1), final (run cs s1), e1 ++ events (run cs s1))
    | (Ok false, s1, e1) => (Ok (res s1), s1, e1 ++ [])
    | (Raise e, s1, e1) => (Raise e, s1, e1)
    end.
Proof.
  unfold run_module.
  destruct (is_supported cs s) as [[[[|]|e] s1] e1] eqn:Hg.
  - now rewrite (bind_ok _ _ s true s1 e1 Hg).
  - now rewrite (bind_ok _ _ s false s1 e1 Hg).
  - now rewrite (bind_raise _ _ s e s1 e1 Hg).
Qed.

End gate_facts.

(** ** The claims *)

Section claims.

Context {HW : Type}.
Variable cs : Chipset HW.

(** C1. For every thread id whose register read succeeds, with LOCK decoded
    to a field value (0 or 1), the per-thread evaluator returns PASSED
    exactly when SMM_Code_Chk_En = 1 and LOCK = 1, FAILED exactly when
    SMM_Code_Chk_En = 1 and LOCK = 0, WARNING whenever SMM_Code_Chk_En = 0
    (indeed exactly when it is not 1, whatever LOCK is), and no other
    verdict. *)
Theorem evaluator_decision_table
    (thread_id : ThreadId) (s : Self HW) (regval : RegisterValue) (h : HW) :
  read_register cs MSR_SMM_FEATURE_CONTROL thread_id (hw s) = (Ok regval, h) ->
  (field_LOCK cs regval = 0 \/ field_LOCK cs regval = 1)%Z ->
  exists v,
    outcome (_check_SMM_Code_Chk_En cs thread_id s) = Ok v /\
    (v = PASSED <->
     field_SMM_Code_Chk_En cs regval = 1%Z /\ field_LOCK cs regval = 1%Z) /\
    (v = FAILED <->
     field_SMM_Code_Chk_En cs regval = 1%Z /\ field_LOCK cs regval = 0%Z) /\
    (field_SMM_Code_Chk_En cs regval = 0%Z -> v = WARNING) /\
    (v = WARNING <-> field_SMM_Code_Chk_En cs regval <> 1%Z) /\
    (v = PASSED \/ v = FAILED \/ v = WARNING).
Proof.
  intros Hread Hlock.
  exists (verdict_of cs regval).
  rewrite (check_thread_ok cs _ _ _ _ Hread).
  split; [reflexivity|].
  unfold verdict_of.
  destruct (classify_cases (field_SMM_Code_Chk_En cs regval)
              (field_LOCK cs regval))
    as [(-> & He & Hl)|[(-> & He & Hl)|(-> & He)]].
  - repeat split; intros; try discriminate; try lia; auto.
  - assert (field_LOCK cs regval = 0%Z) by lia.
    repeat split; intros; try discriminate; try lia; auto.
  - repeat split; intros; try discriminate; try lia; auto.
Qed.

(** C2. With at least two threads, if the per-thread evaluations yield
    results of which two differ, [check_SMM_Code_Chk_En] returns ERROR,
    whichever the two are; after the loop it only logs the mismatch and
    interprets no individual result. *)
Theorem disagreement_is_ERROR
    (s : Self HW) (rs : list ModuleResult) (s1 : Self HW) (evs1 : list event)
    (i j : nat) (vi vj : ModuleResult) :
  (2 <= get_cpu_thread_count cs (hw s))%nat ->
  collect_results cs s = (Ok rs, s1, evs1) ->
  nth_error rs i = Some vi ->
  nth_error rs j = Some vj ->
  vi <> vj ->
  check_SMM_Code_Chk_En cs s
  = (Ok ERROR, s1,
     EvStartTest msg_start_test :: evs1 ++ [EvLogFailedCheck msg_not_same]).
Proof.
  intros _ Hc Hi Hj Hne.
  rewrite check_run, Hc.
  destruct rs as [|r0 rs]; [now destruct i|].
  rewrite aggregate_cons.
  destruct (forallb _ (r0 :: rs)) eqn:Hall; [|reflexivity].
  exfalso. apply Hne.
  apply forallb_eq_first in Hall. rewrite Forall_forall in Hall.
  rewrite <- (Hall vi (nth_error_In _ _ Hi)).
  now rewrite <- (Hall vj (nth_error_In _ _ Hj)).
Qed.

(** C3. For every thread count N and verdict V, if all N per-thread
    evaluations return V (there is at least one evaluation to return it,
    N >= 1), [check_SMM_Code_Chk_En] returns V. *)
Theorem unanimous_result_is_returned
    (s : Self HW) (V : ModuleResult)
    (rs : list ModuleResult) (s1 : Self HW) (evs1 : list event) :
  (1 <= get_cpu_thread_count cs (hw s))%nat ->
  collect_results cs s = (Ok rs, s1, evs1) ->
  Forall (eq V) rs ->
  check_SMM_Code_Chk_En cs s
  = (Ok V, s1, EvStartTest msg_start_test :: evs1 ++ [report V]).
Proof.
  intros Hn Hc Hall.
  pose proof (collect_results_length cs _ _ _ _ Hc) as Hlen.
  rewrite check_run, Hc.
  destruct rs as [|r0 rs]; [simpl in Hlen; lia|].
  assert (r0 = V) as -> by (inversion Hall; congruence).
  rewrite aggregate_cons.
  apply forallb_eq_first in Hall. now rewrite Hall.
Qed.

(** C4. If the gate's probe read fails with HWAccessViolationError,
    [is_supported] catches it, records NOTAPPLICABLE in [self.res] and
    returns False; the caller then skips the aggregation, so the probe is
    the only register read and the overall result is NOTAPPLICABLE.  If the
    probe read succeeds, [is_supported] returns True and keeps nothing of
    the value read. *)
Theorem gate_catches_access_error (s : Self HW) (h : HW) :
  (read_register cs MSR_SMM_FEATURE_CONTROL default_cpu_thread (hw s)
   = (Raise HWAccessViolationError, h) ->
   is_supported cs s
   = (Ok false, mkSelf h NOTAPPLICABLE,
      [EvReadRegister MSR_SMM_FEATURE_CONTROL default_cpu_thread
         (Raise HWAccessViolationError)]) /\
   outcome (run_module cs s) = Ok NOTAPPLICABLE /\
   final (run_module cs s) = mkSelf h NOTAPPLICABLE /\
   reads (events (run_module cs s))
   = [(default_cpu_thread, Raise HWAccessViolationError)]) /\
  (forall v,
      read_register cs MSR_SMM_FEATURE_CONTROL default_cpu_thread (hw s)
      = (Ok v, h) ->
      outcome (is_supported cs s) = Ok true /\
      final (is_supported cs s) = mkSelf h (res s)).
Proof.
  split.
  - intros Hr.
    assert (is_supported cs s
            = (Ok false, mkSelf h NOTAPPLICABLE,
               [EvReadRegister MSR_SMM_FEATURE_CONTROL default_cpu_thread
                  (Raise HWAccessViolationError)])) as Hg
        by (rewrite is_supported_run, Hr; reflexivity).
    split; [exact Hg|].
    rewrite run_module_run, Hg. repeat split.
  - intros v Hr. rewrite is_supported_run, Hr. split; reflexivity.
Qed.

(** C5. A register read that fails with HWAccessViolationError during the
    per-thread evaluation is caught neither by the evaluator nor by the
    aggregator: the evaluator raises it, and so does
    [check_SMM_Code_Chk_En], which then returns none of the five verdicts. *)
Theorem access_error_propagates (s : Self HW) :
  (forall tid h,
      read_register cs MSR_SMM_FEATURE_CONTROL tid (hw s)
      = (Raise HWAccessViolationError, h) ->
      outcome (_check_SMM_Code_Chk_En cs tid s)
      = Raise HWAccessViolationError) /\
  (forall name tid,
      In (EvReadRegister name tid (Raise HWAccessViolationError))
         (events (check_SMM_Code_Chk_En cs s)) ->
      outcome (check_SMM_Code_Chk_En cs s) = Raise HWAccessViolationError /\
      forall v, outcome (check_SMM_Code_Chk_En cs s) <> Ok v).
Proof.
  split.
  - intros tid h Hr. now rewrite (check_thread_raise cs _ _ _ _ Hr).
  - intros name tid Hin.
    assert (outcome (check_SMM_Code_Chk_En cs s)
            = Raise HWAccessViolationError) as Ho.
    { rewrite check_run in *.
      pose proof (for_tid_append_failed_read cs
                    (range (get_cpu_thread_count cs (hw s))) [] s name tid
                    HWAccessViolationError) as Hfail.
      rewrite <- collect_results_eq in Hfail.
      destruct (collect_results cs s) as [[[rs|e] s1] e1].
      - exfalso. unfold events in Hin at 1. simpl in Hin.
        destruct Hin as [E|Hin]; [discriminate|].
        apply in_app_or in Hin. destruct Hin as [Hin|Hin].
        + specialize (Hfail Hin). discriminate.
        + destruct (aggregate_pure rs s1) as (_ & Hlog & _).
          rewrite Forall_forall in Hlog. specialize (Hlog _ Hin).
          discriminate.
      - unfold events in Hin. simpl in Hin.
        destruct Hin as [E|Hin]; [discriminate|].
        specialize (Hfail Hin). unfold outcome in Hfail. simpl in Hfail.
        injection Hfail as ->. reflexivity. }
    split; [exact Ho|]. intros v. rewrite Ho. discriminate.
Qed.

Lemma nth_error_combine {A B : Type} (l1 : list A) :
  forall (l2 : list B) i a b,
    nth_error l1 i = Some a -> nth_error l2 i = Some b ->
    nth_error (combine l1 l2) i = Some (a, b).
Proof.
  induction l1 as [|x l1 IH]; intros [|y l2] [|i] a b H1 H2;
    simpl in *; try discriminate.
  - congruence.
  - now apply IH.
Qed.

Lemma map_fst_combine {A B : Type} (l1 : list A) :
  forall l2 : list B,
    List.length l2 = List.length l1 -> map fst (combine l1 l2) = l1.
Proof.
  induction l1 as [|x l1 IH]; intros [|y l2] Hlen;
    simpl in *; try discriminate; [reflexivity|].
  f_equal. apply IH. congruence.
Qed.

(** C6. In every aggregation run that collects its results, each thread id
    below the thread count is evaluated exactly once (every evaluation is
    one register read: the reads are those of threads 0, 1, ..., in that
    order, none skipped, none repeated), the collected list has as many
    entries as there are threads, and entry [i] is the verdict of the value
    read on thread [i]. *)
Theorem collect_results_exhaustive
    (s : Self HW) (rs : list ModuleResult) (s1 : Self HW) (evs : list event) :
  collect_results cs s = (Ok rs, s1, evs) ->
  map fst (reads evs) = range (get_cpu_thread_count cs (hw s)) /\
  NoDup (map fst (reads evs)) /\
  (forall tid, In tid (map fst (reads evs))
               <-> (tid < get_cpu_thread_count cs (hw s))%nat) /\
  List.length rs = get_cpu_thread_count cs (hw s) /\
  (forall i, (i < get_cpu_thread_count cs (hw s))%nat ->
             exists regval,
               nth_error (reads evs) i = Some (i, Ok regval) /\
               nth_error rs i = Some (verdict_of cs regval)).
Proof.
  intros Hc.
  pose proof (collect_results_length cs _ _ _ _ Hc) as Hlen.
  rewrite collect_results_eq in Hc.
  destruct (for_tid_append_ok cs _ _ _ _ _ _ Hc)
    as (vals & Hvals & Hreads & Hrs & _).
  set (n := get_cpu_thread_count cs (hw s)) in *.
  unfold range in *. rewrite length_seq in Hvals. simpl in Hrs.
  assert (map fst (reads evs) = seq 0 n) as Hfst.
  { rewrite Hreads. apply map_fst_combine. now rewrite length_map, length_seq. }
  split; [exact Hfst|]. rewrite Hfst.
  split; [apply seq_NoDup|].
  split; [intros tid; rewrite in_seq; lia|].
  split; [exact Hlen|].
  intros i Hi.
  destruct (nth_error vals i) as [v|] eqn:Hv.
  2:{ apply nth_error_None in Hv. lia. }
  exists v. split.
  - rewrite Hreads. apply nth_error_combine.
    + rewrite (nth_error_nth' _ 0%nat) by (rewrite length_seq; lia).
      now rewrite seq_nth.
    + now apply map_nth_error.
  - rewrite Hrs. now apply map_nth_error.
Qed.

Lemma collect_results_no_ERROR (s : Self HW) rs :
  outcome (collect_results cs s) = Ok rs -> ~ In ERROR rs.
Proof.
  intros Ho Hin.
  destruct (collect_results cs s) as [[r s1] e1] eqn:Hc.
  unfold outcome in Ho. simpl in Ho. subst r.
  rewrite collect_results_eq in Hc.
  destruct (for_tid_append_ok cs _ _ _ _ _ _ Hc) as (vals & _ & _ & -> & _).
  simpl in Hin. apply in_map_iff in Hin. destruct Hin as (v & Hv & _).
  exact (verdict_of_not_ERROR cs v Hv).
Qed.

Lemma msg_not_same_not_locked : msg_not_same <> msg_not_locked.
Proof. discriminate. Qed.

(** C7. The per-thread evaluator never returns ERROR, so no collected result
    is ERROR, the branch of line 65 (a unanimous ERROR) is never taken: its
    log message appears in no run, and an ERROR returned by
    [check_SMM_Code_Chk_En] always comes from the unanimity check. *)
Theorem evaluator_never_ERROR (s : Self HW) :
  (forall tid, outcome (_check_SMM_Code_Chk_En cs tid s) <> Ok ERROR) /\
  (forall rs, outcome (collect_results cs s) = Ok rs -> ~ In ERROR rs) /\
  ~ In (EvLogFailedCheck msg_not_locked)
       (events (check_SMM_Code_Chk_En cs s)) /\
  (outcome (check_SMM_Code_Chk_En cs s) = Ok ERROR ->
   In (EvLogFailedCheck msg_not_same) (events (check_SMM_Code_Chk_En cs s))).
Proof.
  split; [|split; [|split]].
  - intros tid.
    destruct (check_thread_cases cs tid s)
      as [(v & h & _ & ->)|(e & h & _ & ->)]; unfold outcome; simpl.
    + intros E. injection E as E. exact (verdict_of_not_ERROR cs v E).
    + discriminate.
  - apply collect_results_no_ERROR.
  - rewrite check_run.
    pose proof (collect_results_no_ERROR s) as Hno.
    pose proof (for_tid_append_events cs
                  (range (get_cpu_thread_count cs (hw s))) [] s) as Hev.
    rewrite <- collect_results_eq in Hev.
    destruct (collect_results cs s) as [[[rs|e] s1] e1];
      unfold events in Hev |- * at 1; simpl in Hev |- *;
      rewrite Forall_forall in Hev.
    + intros [E|Hin]; [discriminate|].
      apply in_app_or in Hin. destruct Hin as [Hin|Hin].
      * destruct (Hev _ Hin) as [Hlog _]. discriminate.
      * specialize (Hno rs eq_refl).
        destruct rs as [|r0 rs]; [exact Hin|].
        rewrite aggregate_cons in Hin.
        destruct (forallb _ (r0 :: rs)); unfold events in Hin; simpl in Hin;
          destruct Hin as [E|[]].
        -- destruct r0; try discriminate. apply Hno. now left.
        -- apply msg_not_same_not_locked. congruence.
    + intros [E|Hin]; [discriminate|].
      destruct (Hev _ Hin) as [Hlog _]. discriminate.
  - rewrite check_run.
    pose proof (collect_results_no_ERROR s) as Hno.
    destruct (collect_results cs s) as [[[rs|e] s1] e1];
      [|unfold outcome; simpl; discriminate].
    specialize (Hno rs eq_refl).
    destruct rs as [|r0 rs]; [unfold outcome; simpl; discriminate|].
    rewrite aggregate_cons.
    destruct (forallb _ (r0 :: rs)); unfold outcome, events; simpl.
    + intros E. injection E as ->. exfalso. apply Hno. now left.
    + intros _. right. apply in_or_app. right. now left.
Qed.

(** C8. With a thread count of 0 the loop collects nothing, the unanimity
    check passes over the empty list, and [results[0]] raises IndexError:
    [check_SMM_Code_Chk_En] returns no verdict and raises no
    HWAccessViolationError.  Whenever it returns a verdict, the thread count
    is at least 1. *)
Theorem zero_threads_IndexError (s : Self HW) :
  (get_cpu_thread_count cs (hw s) = 0%nat ->
   collect_results cs s = (Ok [], s, []) /\
   all_eq_first [] [] s = (Ok true, s, []) /\
   getitem (@nil ModuleResult) 0 s = (Raise IndexError, s, []) /\
   check_SMM_Code_Chk_En cs s
   = (Raise IndexError, s, [EvStartTest msg_start_test]) /\
   (forall v, outcome (check_SMM_Code_Chk_En cs s) <> Ok v) /\
   outcome (check_SMM_Code_Chk_En cs s) <> Raise HWAccessViolationError) /\
  (forall v,
      outcome (check_SMM_Code_Chk_En cs s) = Ok v ->
      (1 <= get_cpu_thread_count cs (hw s))%nat).
Proof.
  assert (get_cpu_thread_count cs (hw s) = 0%nat ->
          check_SMM_Code_Chk_En cs s
          = (Raise IndexError, s, [EvStartTest msg_start_test])) as Hzero.
  { intros Hn. rewrite check_run, collect_results_eq, Hn. reflexivity. }
  split.
  - intros Hn. specialize (Hzero Hn).
    split; [rewrite collect_results_eq, Hn; reflexivity|].
    repeat (split; [reflexivity|]).
    split; [exact Hzero|].
    rewrite Hzero. split; [intros v|]; discriminate.
  - intros v Hv.
    destruct (get_cpu_thread_count cs (hw s)) as [|n]; [|lia].
    rewrite (Hzero eq_refl) in Hv. discriminate.
Qed.

Section fixed_registers.

(** The hardware states in which the register values and the thread count
    are the fixed ones; reading a register stays among them. *)
Variable stable : HW -> Prop.
Variable fixed : ThreadId -> result RegisterValue.
Variable N : nat.

Hypothesis stable_read : forall h tid,
  stable h -> stable (snd (read_register cs MSR_SMM_FEATURE_CONTROL tid h)).
Hypothesis fixed_read : forall h tid,
  stable h -> fst (read_register cs MSR_SMM_FEATURE_CONTROL tid h) = fixed tid.
Hypothesis fixed_count : forall h,
  stable h -> get_cpu_thread_count cs h = N.

Lemma check_thread_stable tid (s : Self HW) :
  stable (hw s) -> stable (hw (final (_check_SMM_Code_Chk_En cs tid s))).
Proof.
  intros Hs. pose proof (stable_read (hw s) tid Hs) as Hnext.
  destruct (check_thread_cases cs tid s)
    as [(v & h & R & ->)|(e & h & R & ->)];
    rewrite R in Hnext; exact Hnext.
Qed.

Lemma for_tid_append_stable tids : forall acc (s : Self HW),
  stable (hw s) -> stable (hw (final (for_tid_append cs tids acc s))).
Proof.
  induction tids as [|tid rest IH]; intros acc s Hs; [exact Hs|].
  rewrite for_tid_append_cons.
  pose proof (check_thread_stable tid s Hs) as Hnext.
  destruct (_check_SMM_Code_Chk_En cs tid s) as [[[r|e] s1] e1].
  - unfold final at 1. simpl. now apply IH.
  - exact Hnext.
Qed.

(** What the loop returns depends on the fixed values only. *)
Lemma for_tid_append_fixed tids : forall acc (s1 s2 : Self HW),
  stable (hw s1) -> stable (hw s2) ->
  outcome (for_tid_append cs tids acc s1)
  = outcome (for_tid_append cs tids acc s2).
Proof.
  induction tids as [|tid rest IH]; intros acc s1 s2 St1 St2; [reflexivity|].
  rewrite !for_tid_append_cons.
  pose proof (fixed_read (hw s1) tid St1) as H1.
  pose proof (fixed_read (hw s2) tid St2) as H2.
  pose proof (check_thread_stable tid s1 St1) as N1.
  pose proof (check_thread_stable tid s2 St2) as N2.
  destruct (check_thread_cases cs tid s1)
    as [(v1 & h1 & R1 & C1)|(e1 & h1 & R1 & C1)];
    destruct (check_thread_cases cs tid s2)
      as [(v2 & h2 & R2 & C2)|(e2 & h2 & R2 & C2)];
    rewrite C1 in *; rewrite C2 in *;
    rewrite R1 in H1; rewrite R2 in H2; simpl in H1, H2;
    rewrite <- H2 in H1; try discriminate; injection H1 as ->.
  - unfold outcome at 1 3. simpl. now apply IH.
  - reflexivity.
Qed.

(** C9. From a hardware state in which every thread's register value and
    the thread count are fixed and stay so, a second call of
    [check_SMM_Code_Chk_En], made in the state the first call left, returns
    what the first returned. *)
Theorem check_is_repeatable (s : Self HW) :
  stable (hw s) ->
  outcome (check_SMM_Code_Chk_En cs (final (check_SMM_Code_Chk_En cs s)))
  = outcome (check_SMM_Code_Chk_En cs s).
Proof.
  intros Hs.
  set (s' := final (check_SMM_Code_Chk_En cs s)).
  assert (stable (hw s')) as Hs'.
  { subst s'. rewrite check_run, collect_results_eq.
    pose proof (for_tid_append_stable
                  (range (get_cpu_thread_count cs (hw s))) [] s Hs) as H.
    destruct (for_tid_append cs _ [] s) as [[[rs|e] t] ev]; exact H. }
  pose proof (for_tid_append_fixed (range N) [] s' s Hs' Hs) as Hloop.
  rewrite (check_run cs s), (check_run cs s'), !collect_results_eq.
  rewrite (fixed_count _ Hs), (fixed_count _ Hs').
  destruct (for_tid_append cs (range N) [] s') as [[[rs2|e2] t2] ev2];
    destruct (for_tid_append cs (range N) [] s) as [[[rs1|e1] t1] ev1];
    unfold outcome in Hloop; simpl in Hloop; try discriminate;
    injection Hloop as ->.
  - unfold outcome at 1 3. simpl.
    now destruct (aggregate_pure rs1 t1) as (_ & _ & ->).
  - reflexivity.
Qed.

End fixed_registers.

Lemma count_reads_logs name tid (evs : list event) :
  Forall (fun ev => is_log ev = true) evs -> count_reads name tid evs = 0%nat.
Proof.
  unfold count_reads.
  induction 1 as [|ev evs Hlog _ IH]; [reflexivity|].
  destruct ev; simpl in *; try discriminate; exact IH.
Qed.

Lemma count_reads_other_threads name tid tids (evs : list event) :
  Forall (fun ev => is_log ev = false
                    /\ forall n t o, ev = EvReadRegister n t o ->
                                     n = MSR_SMM_FEATURE_CONTROL /\ In t tids)
         evs ->
  ~ In tid tids -> count_reads name tid evs = 0%nat.
Proof.
  unfold count_reads. intros Hevs Hnot.
  induction Hevs as [|ev evs [_ Hev] _ IH]; [reflexivity|].
  destruct ev as [n t o| | | | |]; simpl; try exact IH.
  destruct (Hev n t o eq_refl) as [_ Hin].
  destruct (Nat.eqb_spec t tid) as [->|_]; [contradiction|].
  rewrite andb_false_r. exact IH.
Qed.

(** With at least one thread, the check reads thread 0 exactly once, and
    before any other thread. *)
Lemma check_reads_thread0 (s : Self HW) :
  (1 <= get_cpu_thread_count cs (hw s))%nat ->
  (exists out,
      nth_error (reads (events (check_SMM_Code_Chk_En cs s))) 0
      = Some (0%nat, out)) /\
  count_reads MSR_SMM_FEATURE_CONTROL 0
    (events (check_SMM_Code_Chk_En cs s)) = 1%nat.
Proof.
  intros Hn.
  destruct (get_cpu_thread_count cs (hw s)) as [|n] eqn:Hcount; [lia|].
  assert (forall A (x : result A * Self HW * list event) (tl : list event),
             (exists out, nth_error (reads (events x)) 0 = Some (0%nat, out))
             /\ count_reads MSR_SMM_FEATURE_CONTROL 0 (events x) = 1%nat ->
             Forall (fun ev => is_log ev = true) tl ->
             (exists out,
                 nth_error (reads (EvStartTest msg_start_test
                                     :: events x ++ tl)) 0
                 = Some (0%nat, out))
             /\ count_reads MSR_SMM_FEATURE_CONTROL 0
                  (EvStartTest msg_start_test :: events x ++ tl) = 1%nat)
    as Hwrap.
  { intros A x tl [[out Hout] Hcnt] Htl. split.
    - exists out. simpl reads. rewrite reads_app.
      destruct (reads (events x)) as [|p l]; [discriminate|exact Hout].
    - change (EvStartTest msg_start_test :: events x ++ tl)
        with ([EvStartTest msg_start_test] ++ events x ++ tl).
      rewrite !count_reads_app, Hcnt, (count_reads_logs _ _ tl Htl).
      reflexivity. }
  assert ((exists out,
              nth_error (reads (events (collect_results cs s))) 0
              = Some (0%nat, out))
          /\ count_reads MSR_SMM_FEATURE_CONTROL 0
               (events (collect_results cs s)) = 1%nat) as Hcollect.
  { rewrite collect_results_eq, Hcount. unfold range. simpl seq.
    rewrite for_tid_append_cons.
    destruct (check_thread_cases cs 0%nat s)
      as [(v & h & _ & ->)|(e & h & _ & ->)].
    - unfold events at 1 3. simpl snd. split.
      + eexists. reflexivity.
      + change (?a :: ?b :: ?l) with ([a; b] ++ l).
        rewrite count_reads_app.
        match goal with
        | |- (_ + ?c)%nat = _ => assert (c = 0%nat) as ->
        end.
        * apply (count_reads_other_threads _ 0%nat (seq 1 n)).
          -- apply for_tid_append_events.
          -- rewrite in_seq. lia.
        * reflexivity.
    - unfold events. simpl. split; [eexists|]; reflexivity. }
  rewrite check_run.
  destruct (collect_results cs s) as [[[rs|e] s1] e1].
  - unfold events at 1 3. simpl snd.
    apply (Hwrap _ (Ok rs, s1, e1)); [exact Hcollect|].
    apply aggregate_pure.
  - unfold events at 1 2. simpl snd.
    rewrite <- (app_nil_r e1).
    apply (Hwrap _ (@Raise (list ModuleResult) e, s1, e1));
      [exact Hcollect|constructor].
Qed.

(** C10. The gate's probe performs exactly one register read, of
    MSR_SMM_FEATURE_CONTROL on thread 0.  When the gate reports supported
    and thread 0 is among the threads the aggregator evaluates (the thread
    count is at least 1), the aggregator's first read is that same register
    of thread 0, and the whole run reads it exactly twice. *)
Theorem probe_reads_thread0 (s : Self HW) :
  (exists out,
      events (is_supported cs s)
      = [EvReadRegister MSR_SMM_FEATURE_CONTROL 0 out]) /\
  (outcome (is_supported cs s) = Ok true ->
   (1 <= get_cpu_thread_count cs (hw (final (is_supported cs s))))%nat ->
   (exists out,
       nth_error
         (reads (events (check_SMM_Code_Chk_En cs
                           (final (is_supported cs s))))) 0
       = Some (0%nat, out)) /\
   count_reads MSR_SMM_FEATURE_CONTROL 0
     (events (check_SMM_Code_Chk_En cs (final (is_supported cs s)))) = 1%nat /\
   count_reads MSR_SMM_FEATURE_CONTROL 0 (events (run_module cs s)) = 2%nat).
Proof.
  split.
  - rewrite is_supported_run. unfold default_cpu_thread.
    destruct (read_register cs MSR_SMM_FEATURE_CONTROL 0 (hw s))
      as [[v|e] h]; [|destruct (is_HWAccessViolationError e)];
      eexists; reflexivity.
  - intros Hsup Hn.
    destruct (check_reads_thread0 _ Hn) as [Hfirst Hcnt].
    split; [exact Hfirst|]. split; [exact Hcnt|].
    rewrite run_module_run.
    revert Hsup Hcnt. rewrite is_supported_run. unfold default_cpu_thread.
    destruct (read_register cs MSR_SMM_FEATURE_CONTROL 0 (hw s))
      as [[v|e] h]; [|destruct (is_HWAccessViolationError e)];
      unfold outcome at 1, final at 1; simpl fst; simpl snd;
      try discriminate.
    intros _ Hcnt. unfold run, events at 1. simpl snd.
    change (?a :: ?l) with ([a] ++ l).
    rewrite count_reads_app, Hcnt. reflexivity.
Qed.

End claims.

(** ** The spec's scenarios on the sample platform *)

Example scenario_A_PASSED :
  outcome (run_module table_chipset scenario_A) = Ok PASSED.
Proof. reflexivity. Qed.

Example scenario_B_FAILED :
  outcome (run_module table_chipset scenario_B) = Ok FAILED.
Proof. reflexivity. Qed.

Example scenario_C_ERROR :
  outcome (run_module table_chipset scenario_C) = Ok ERROR.
Proof. reflexivity. Qed.

Example scenario_D_WARNING :
  outcome (run_module table_chipset scenario_D) = Ok WARNING.
Proof. reflexivity. Qed.

Example scenario_E_NOTAPPLICABLE :
  run_module table_chipset scenario_E
  = (Ok NOTAPPLICABLE,
     mkSelf [Raise HWAccessViolationError; Raise HWAccessViolationError]
       NOTAPPLICABLE,
     [EvReadRegister MSR_SMM_FEATURE_CONTROL 0
        (Raise HWAccessViolationError)]).
Proof. reflexivity. Qed.

(** ** The claims at concrete platforms *)

Lemma evaluator_decision_table_witness :
  (field_LOCK table_chipset regval_en_nolock = 0%Z
   \/ field_LOCK table_chipset regval_en_nolock = 1%Z) /\
  outcome (_check_SMM_Code_Chk_En table_chipset 1 scenario_C) = Ok FAILED.
Proof.
  assert (field_LOCK table_chipset regval_en_nolock = 0%Z
          \/ field_LOCK table_chipset regval_en_nolock = 1%Z) as Hlock
      by (left; reflexivity).
  split; [exact Hlock|].
  destruct (evaluator_decision_table table_chipset 1 scenario_C
              regval_en_nolock (hw scenario_C) eq_refl Hlock)
    as (v & Hv & _ & Hfailed & _).
  rewrite Hv. f_equal. apply Hfailed. split; reflexivity.
Defined.

Lemma disagreement_is_ERROR_witness :
  (2 <= get_cpu_thread_count table_chipset (hw scenario_C))%nat /\
  outcome (collect_results table_chipset scenario_C) = Ok [PASSED; FAILED] /\
  outcome (check_SMM_Code_Chk_En table_chipset scenario_C) = Ok ERROR.
Proof.
  split; [apply le_n|]. split; [reflexivity|].
  rewrite (disagreement_is_ERROR table_chipset scenario_C [PASSED; FAILED]
             scenario_C (events (collect_results table_chipset scenario_C))
             0 1 PASSED FAILED);
    [reflexivity | apply le_n | reflexivity | reflexivity | reflexivity
    | discriminate].
Defined.

Lemma unanimous_result_is_returned_witness :
  (1 <= get_cpu_thread_count table_chipset (hw scenario_B))%nat /\
  outcome (collect_results table_chipset scenario_B)
  = Ok [FAILED; FAILED; FAILED; FAILED] /\
  outcome (check_SMM_Code_Chk_En table_chipset scenario_B) = Ok FAILED.
Proof.
  split; [simpl; lia|]. split; [reflexivity|].
  rewrite (unanimous_result_is_returned table_chipset scenario_B FAILED
             [FAILED; FAILED; FAILED; FAILED] scenario_B
             (events (collect_results table_chipset scenario_B)));
    [reflexivity | simpl; lia | reflexivity | repeat constructor].
Defined.

Lemma gate_catches_access_error_witness :
  is_supported table_chipset scenario_E
  = (Ok false, mkSelf (hw scenario_E) NOTAPPLICABLE,
     [EvReadRegister MSR_SMM_FEATURE_CONTROL default_cpu_thread
        (Raise HWAccessViolationError)]) /\
  outcome (is_supported table_chipset scenario_A) = Ok true.
Proof.
  split.
  - apply (proj1 (gate_catches_access_error table_chipset scenario_E
                    (hw scenario_E))).
    reflexivity.
  - apply (proj2 (gate_catches_access_error table_chipset scenario_A
                    (hw scenario_A)) regval_en_lock).
    reflexivity.
Defined.

Lemma access_error_propagates_witness :
  outcome (is_supported table_chipset late_failure) = Ok true /\
  outcome (_check_SMM_Code_Chk_En table_chipset 1 late_failure)
  = Raise HWAccessViolationError /\
  outcome (check_SMM_Code_Chk_En table_chipset late_failure)
  = Raise HWAccessViolationError.
Proof.
  split; [reflexivity|]. split.
  - apply (proj1 (access_error_propagates table_chipset late_failure) 1%nat
             (hw late_failure)).
    reflexivity.
  - apply (proj2 (access_error_propagates table_chipset late_failure)
             MSR_SMM_FEATURE_CONTROL 1%nat).
    vm_compute. right; right; right; left. reflexivity.
Defined.

Lemma collect_results_exhaustive_witness :
  outcome (collect_results table_chipset scenario_C) = Ok [PASSED; FAILED] /\
  map fst (reads (events (collect_results table_chipset scenario_C)))
  = [0%nat; 1%nat] /\
  List.length [PASSED; FAILED]
  = get_cpu_thread_count table_chipset (hw scenario_C).
Proof.
  split; [reflexivity|].
  destruct (collect_results_exhaustive table_chipset scenario_C
              [PASSED; FAILED] scenario_C
              (events (collect_results table_chipset scenario_C)) eq_refl)
    as (Hreads & _ & _ & Hlen & _).
  split; [exact Hreads | exact Hlen].
Defined.

Lemma evaluator_never_ERROR_witness :
  outcome (check_SMM_Code_Chk_En table_chipset scenario_C) = Ok ERROR /\
  In (EvLogFailedCheck msg_not_same)
     (events (check_SMM_Code_Chk_En table_chipset scenario_C)) /\
  ~ In ERROR [PASSED; FAILED].
Proof.
  destruct (evaluator_never_ERROR table_chipset scenario_C)
    as (_ & Hcollected & _ & Hunanimity).
  split; [reflexivity|]. split.
  - apply Hunanimity. reflexivity.
  - apply Hcollected. reflexivity.
Defined.

Lemma zero_threads_IndexError_witness :
  get_cpu_thread_count table_chipset (hw zero_thread_platform) = 0%nat /\
  outcome (check_SMM_Code_Chk_En table_chipset zero_thread_platform)
  = Raise IndexError /\
  outcome (check_SMM_Code_Chk_En table_chipset scenario_D) = Ok WARNING /\
  (1 <= get_cpu_thread_count table_chipset (hw scenario_D))%nat.
Proof.
  split; [reflexivity|]. split; [|split; [reflexivity|]].
  - destruct (proj1 (zero_threads_IndexError table_chipset
                       zero_thread_platform) eq_refl)
      as (_ & _ & _ & Hcheck & _).
    now rewrite Hcheck.
  - apply (proj2 (zero_threads_IndexError table_chipset scenario_D) WARNING).
    reflexivity.
Defined.

Lemma check_is_repeatable_witness :
  outcome (check_SMM_Code_Chk_En table_chipset
             (final (check_SMM_Code_Chk_En table_chipset scenario_A)))
  = outcome (check_SMM_Code_Chk_En table_chipset scenario_A) /\
  outcome (check_SMM_Code_Chk_En table_chipset scenario_A) = Ok PASSED.
Proof.
  split; [|reflexivity].
  apply (check_is_repeatable table_chipset
           (fun h => h = hw scenario_A)
           (fun tid => nth tid (hw scenario_A)
                         (Raise (OtherException "no such cpu thread")))
           4%nat).
  - intros h tid Hh. exact Hh.
  - intros h tid Hh. rewrite Hh. reflexivity.
  - intros h Hh. rewrite Hh. reflexivity.
  - reflexivity.
Defined.

Lemma probe_reads_thread0_witness :
  outcome (is_supported table_chipset scenario_A) = Ok true /\
  (1 <= get_cpu_thread_count table_chipset
          (hw (final (is_supported table_chipset scenario_A))))%nat /\
  count_reads MSR_SMM_FEATURE_CONTROL 0
    (events (run_module table_chipset scenario_A)) = 2%nat.
Proof.
  split; [reflexivity|]. split; [simpl; lia|].
  apply (proj2 (probe_reads_thread0 table_chipset scenario_A)).
  - reflexivity.
  - simpl. lia.
Defined.

(** * Further properties of the module *)

Lemma reads_logs (evs : list event) :
  Forall (fun ev => is_log ev = true) evs -> reads evs = [].
Proof.
  induction 1 as [|ev evs Hlog _ IH]; [reflexivity|].
  destruct ev; simpl in *; try discriminate; exact IH.
Qed.

Lemma filter_is_log_evaluated (l : list (ThreadId * RegisterValue)) :
  filter is_log (flat_map evaluated l) = [].
Proof. induction l as [|p l IH]; simpl; [reflexivity|exact IH]. Qed.

Lemma reads_evaluated (tids : list ThreadId) :
  forall vals : list RegisterValue,
    reads (flat_map evaluated (combine tids vals))
    = combine tids (map Ok vals).
Proof.
  induction tids as [|tid tids IH]; intros [|v vals]; simpl; try reflexivity.
  now rewrite IH.
Qed.

Lemma in_evaluated_read (l : list (ThreadId * RegisterValue)) n t o :
  In (EvReadRegister n t o) (flat_map evaluated l) ->
  n = MSR_SMM_FEATURE_CONTROL /\ exists v, o = Ok v /\ In (t, v) l.
Proof.
  induction l as [|[tid v] l IH]; simpl; [contradiction|].
  intros [E|[E|Hin]]; try discriminate.
  - injection E as <- <- <-. split; [reflexivity|]. exists v. now split; [|left].
  - destruct (IH Hin) as (Hn & v' & Ho & Hv).
    split; [exact Hn|]. exists v'. split; [exact Ho|now right].
Qed.

Lemma app_eq_same_length {A : Type} (l1 : list A) :
  forall l1' r r',
    List.length l1 = List.length l1' ->
    l1 ++ r = l1' ++ r' -> l1 = l1' /\ r = r'.
Proof.
  induction l1 as [|x l1 IH]; intros [|y l1'] r r' Hlen Happ;
    simpl in *; try discriminate.
  - now split.
  - injection Happ as -> Happ. injection Hlen as Hlen.
    destruct (IH _ _ _ Hlen Happ) as [-> ->]. now split.
Qed.

Lemma seq_split_at (pre post : list nat) (t a n : nat) :
  seq a n = pre ++ t :: post ->
  pre = seq a (List.length pre) /\ t = (a + List.length pre)%nat
  /\ (List.length pre < n)%nat.
Proof.
  intros Hs.
  assert (n = (List.length pre + S (List.length post))%nat) as Hn.
  { rewrite <- (length_seq n a), Hs, length_app. reflexivity. }
  subst n. rewrite seq_app in Hs.
  apply app_eq_same_length in Hs; [|apply length_seq].
  simpl in Hs. destruct Hs as [Hpre Ht].
  repeat split; [now symmetry|congruence|lia].
Qed.

Lemma forallb_false_witness {A : Type} (f : A -> bool) (l : list A) :
  forallb f l = false -> exists x, In x l /\ f x = false.
Proof.
  induction l as [|a l IH]; simpl; [discriminate|].
  destruct (f a) eqn:Hfa; simpl.
  - intros H. destruct (IH H) as (x & Hx & Hfx). exists x. now split; [right|].
  - intros _. exists a. now split; [left|].
Qed.

Section run_structure.

Context {HW : Type}.
Variable cs : Chipset HW.

(** The loop either evaluates every thread of [tids], or stops at the first
    thread whose read raises; [self.res] is not written either way. *)
Lemma for_tid_append_run tids : forall acc (s : Self HW),
  (exists vals s',
      List.length vals = List.length tids /\
      res s' = res s /\
      for_tid_append cs tids acc s
      = (Ok (acc ++ map (verdict_of cs) vals), s',
         flat_map evaluated (combine tids vals)))
  \/
  (exists pre t post vals e s',
      tids = pre ++ t :: post /\
      List.length vals = List.length pre /\
      res s' = res s /\
      for_tid_append cs tids acc s
      = (Raise e, s',
         flat_map evaluated (combine pre vals)
         ++ [EvReadRegister MSR_SMM_FEATURE_CONTROL t (Raise e)])).
Proof.
  induction tids as [|tid rest IH]; intros acc s.
  - left. exists [], s. simpl. rewrite app_nil_r. repeat split.
  - rewrite for_tid_append_cons.
    destruct (check_thread_cases cs tid s)
      as [(v & h & _ & ->)|(e & h & _ & ->)].
    + destruct (IH (acc ++ [verdict_of cs v]) (mkSelf h (res s)))
        as [(vals & s' & Hlen & Hres & ->)
           |(pre & t & post & vals & e & s' & -> & Hlen & Hres & ->)].
      * left. exists (v :: vals), s'. simpl.
        rewrite <- app_assoc. repeat split; [now rewrite Hlen|exact Hres].
      * right. exists (tid :: pre), t, post, (v :: vals), e, s'. simpl.
        repeat split; [now rewrite Hlen|exact Hres].
    + right. exists [], tid, rest, [], e, (mkSelf h (res s)). repeat split.
Qed.

Lemma collect_results_run (s : Self HW) :
  (exists vals s1,
      List.length vals = get_cpu_thread_count cs (hw s) /\
      res s1 = res s /\
      collect_results cs s
      = (Ok (map (verdict_of cs) vals), s1,
         flat_map evaluated
           (combine (range (get_cpu_thread_count cs (hw s))) vals)))
  \/
  (exists t vals e s1,
      (t < get_cpu_thread_count cs (hw s))%nat /\
      List.length vals = t /\
      res s1 = res s /\
      collect_results cs s
      = (Raise e, s1,
         flat_map evaluated (combine (range t) vals)
         ++ [EvReadRegister MSR_SMM_FEATURE_CONTROL t (Raise e)])).
Proof.
  rewrite collect_results_eq.
  destruct (for_tid_append_run (range (get_cpu_thread_count cs (hw s))) [] s)
    as [(vals & s' & Hlen & Hres & ->)
       |(pre & t & post & vals & e & s' & Hsplit & Hlen & Hres & ->)].
  - left. exists vals, s'. unfold range in Hlen. rewrite length_seq in Hlen.
    repeat split; assumption.
  - right. unfold range in Hsplit.
    destruct (seq_split_at _ _ _ _ _ Hsplit) as (Hpre & Ht & Hlt).
    simpl in Ht. subst t. exists (List.length pre), vals, e, s'.
    repeat split; try assumption.
    replace (range (List.length pre)) with pre by exact Hpre.
    reflexivity.
Qed.

End run_structure.

Section check_structure.

Context {HW : Type}.
Variable cs : Chipset HW.

(** The three ways a call of [check_SMM_Code_Chk_En] can go: no thread at
    all, every thread evaluated, or a read that raised. *)
Lemma check_cases (s : Self HW) :
  (exists s1,
      get_cpu_thread_count cs (hw s) = 0%nat /\ res s1 = res s /\
      check_SMM_Code_Chk_En cs s
      = (Raise IndexError, s1, [EvStartTest msg_start_test]))
  \/
  (exists v0 vals s1,
      S (List.length vals) = get_cpu_thread_count cs (hw s) /\
      res s1 = res s /\
      check_SMM_Code_Chk_En cs s
      = if forallb (fun x => ModuleResult_eqb x (verdict_of cs v0))
             (map (verdict_of cs) (v0 :: vals))
        then (Ok (verdict_of cs v0), s1,
              EvStartTest msg_start_test
              :: flat_map evaluated
                   (combine (range (get_cpu_thread_count cs (hw s)))
                      (v0 :: vals))
              ++ [report (verdict_of cs v0)])
        else (Ok ERROR, s1,
              EvStartTest msg_start_test
              :: flat_map evaluated
                   (combine (range (get_cpu_thread_count cs (hw s)))
                      (v0 :: vals))
              ++ [EvLogFailedCheck msg_not_same]))
  \/
  (exists t vals e s1,
      (t < get_cpu_thread_count cs (hw s))%nat /\
      List.length vals = t /\
      res s1 = res s /\
      check_SMM_Code_Chk_En cs s
      = (Raise e, s1,
         EvStartTest msg_start_test
         :: flat_map evaluated (combine (range t) vals)
         ++ [EvReadRegister MSR_SMM_FEATURE_CONTROL t (Raise e)])).
Proof.
  rewrite check_run.
  destruct (collect_results_run cs s)
    as [(vals & s1 & Hlen & Hres & ->)|(t & vals & e & s1 & Hlt & Hlen & Hres & ->)].
  - destruct vals as [|v0 vals].
    + left. exists s1. simpl in Hlen. rewrite <- Hlen. repeat split.
      exact Hres.
    + right; left. exists v0, vals, s1.
      split; [exact Hlen|]. split; [exact Hres|].
      change (map (verdict_of cs) (v0 :: vals))
        with (verdict_of cs v0 :: map (verdict_of cs) vals).
      rewrite aggregate_cons.
      destruct (forallb _ (verdict_of cs v0 :: map (verdict_of cs) vals));
        reflexivity.
  - right; right. exists t, vals, e, s1. repeat split; assumption.
Qed.

Lemma filter_is_log_check_prefix
    (l : list (ThreadId * RegisterValue)) (tl : list event) :
  filter is_log (EvStartTest msg_start_test :: flat_map evaluated l ++ tl)
  = EvStartTest msg_start_test :: filter is_log tl.
Proof.
  simpl. now rewrite filter_app, filter_is_log_evaluated.
Qed.

End check_structure.

Section further_properties.

Context {HW : Type}.
Variable cs : Chipset HW.

(** X1. When [check_SMM_Code_Chk_En] returns a verdict, the logger has been
    given the start of the test and exactly one more line, chosen by lines
    60-72: the mismatch failure for ERROR, the warning for WARNING, and the
    passed-check line "enabled and locked down" for PASSED and for FAILED
    alike.  NOTAPPLICABLE is never returned. *)
Theorem result_log_of_verdict (s : Self HW) (v : ModuleResult) :
  outcome (check_SMM_Code_Chk_En cs s) = Ok v ->
  v <> NOTAPPLICABLE /\
  filter is_log (events (check_SMM_Code_Chk_En cs s))
  = [EvStartTest msg_start_test;
     match v with
     | ERROR => EvLogFailedCheck msg_not_same
     | WARNING => EvWarn msg_not_enabled
     | PASSED | FAILED | NOTAPPLICABLE => EvLogPassedCheck msg_locked
     end].
Proof.
  destruct (check_cases cs s)
    as [(s1 & _ & _ & ->)
       |[(v0 & vals & s1 & _ & _ & ->)|(t & vals & e & s1 & _ & _ & _ & ->)]];
    try (unfold outcome; simpl; discriminate).
  pose proof (verdict_of_not_ERROR cs v0) as Hne.
  pose proof (classify_cases (field_SMM_Code_Chk_En cs v0) (field_LOCK cs v0))
    as Hcl.
  fold (verdict_of cs v0) in Hcl.
  destruct (forallb _ _); unfold outcome, events; simpl fst; simpl snd;
    intros E; injection E as <-; rewrite filter_is_log_check_prefix.
  - destruct Hcl as [(-> & _)|[(-> & _)|(-> & _)]];
      (split; [discriminate|reflexivity]).
  - split; [discriminate|reflexivity].
Qed.

(** X2. [check_SMM_Code_Chk_En] raises for two reasons only: there is no
    thread, and line 64 raises IndexError, or a register read of some thread
    below the thread count raised, and that exception is the one raised.
    In both cases the logger has only been given the start of the test. *)
Theorem raise_logs_nothing (s : Self HW) (e : exn) :
  outcome (check_SMM_Code_Chk_En cs s) = Raise e ->
  filter is_log (events (check_SMM_Code_Chk_En cs s))
  = [EvStartTest msg_start_test] /\
  ((get_cpu_thread_count cs (hw s) = 0%nat /\ e = IndexError)
   \/ exists t,
       (t < get_cpu_thread_count cs (hw s))%nat /\
       In (EvReadRegister MSR_SMM_FEATURE_CONTROL t (Raise e))
          (events (check_SMM_Code_Chk_En cs s))).
Proof.
  destruct (check_cases cs s)
    as [(s1 & Hn & _ & ->)
       |[(v0 & vals & s1 & _ & _ & ->)|(t & vals & e' & s1 & Hlt & _ & _ & ->)]].
  - unfold outcome, events; simpl. intros E; injection E as <-.
    split; [reflexivity|]. left. now split.
  - destruct (forallb _ _); unfold outcome; simpl; discriminate.
  - unfold outcome, events; simpl fst; simpl snd. intros E; injection E as ->.
    split; [now rewrite filter_is_log_check_prefix|].
    right. exists t. split; [exact Hlt|].
    right. apply in_or_app. right. now left.
Qed.

(** X3. Only the except-branch of [is_supported] writes [self.res]: the
    evaluator and [check_SMM_Code_Chk_En] leave it as it was, whether they
    return or raise, and [is_supported] changes it (to NOTAPPLICABLE) exactly
    when it returns False. *)
Theorem only_the_gate_writes_res (s : Self HW) :
  res (final (check_SMM_Code_Chk_En cs s)) = res s /\
  (forall tid, res (final (_check_SMM_Code_Chk_En cs tid s)) = res s) /\
  (outcome (is_supported cs s) = Ok false
   /\ res (final (is_supported cs s)) = NOTAPPLICABLE
   \/ outcome (is_supported cs s) <> Ok false
      /\ res (final (is_supported cs s)) = res s).
Proof.
  split; [|split].
  - destruct (check_cases cs s)
      as [(s1 & _ & Hres & ->)
         |[(v0 & vals & s1 & _ & Hres & ->)
          |(t & vals & e & s1 & _ & _ & Hres & ->)]];
      try exact Hres.
    destruct (forallb _ _); exact Hres.
  - intros tid.
    destruct (check_thread_cases cs tid s)
      as [(v & h & _ & ->)|(e & h & _ & ->)]; reflexivity.
  - rewrite is_supported_run.
    destruct (read_register cs MSR_SMM_FEATURE_CONTROL default_cpu_thread
                (hw s)) as [[v|e] h].
    + right. split; [discriminate|reflexivity].
    + destruct (is_HWAccessViolationError e).
      * left. split; reflexivity.
      * right. split; [discriminate|reflexivity].
Qed.

(** X4. [is_supported] catches HWAccessViolationError only: any other
    exception of the probe read is raised to the caller, with [self.res]
    untouched and nothing but the probe read done. *)
Theorem gate_passes_other_exceptions (s : Self HW) (e : exn) (h : HW) :
  read_register cs MSR_SMM_FEATURE_CONTROL default_cpu_thread (hw s)
  = (Raise e, h) ->
  e <> HWAccessViolationError ->
  is_supported cs s
  = (Raise e, mkSelf h (res s),
     [EvReadRegister MSR_SMM_FEATURE_CONTROL default_cpu_thread (Raise e)]).
Proof.
  intros Hr He. rewrite is_supported_run, Hr.
  destruct e; [contradiction| |]; reflexivity.
Qed.

(** X5. In a loop that collects its results, every thread contributes
    exactly a register read immediately followed by a dump of the very
    value read (lines 30 and 34), thread after thread, and nothing else is
    emitted; the results are the verdicts of those values. *)
Theorem evaluations_read_then_dump
    (s : Self HW) (rs : list ModuleResult) (s1 : Self HW) (evs : list event) :
  collect_results cs s = (Ok rs, s1, evs) ->
  exists vals,
    List.length vals = get_cpu_thread_count cs (hw s) /\
    rs = map (verdict_of cs) vals /\
    evs = flat_map evaluated
            (combine (range (get_cpu_thread_count cs (hw s))) vals).
Proof.
  intros Hc.
  destruct (collect_results_run cs s)
    as [(vals & s' & Hlen & _ & Hrun)|(t & vals & e & s' & _ & _ & _ & Hrun)];
    rewrite Hrun in Hc; [|discriminate].
  injection Hc as <- _ <-. exists vals. repeat split. exact Hlen.
Qed.

(** X6. A register read that raises ends the run at once: it is a read of
    MSR_SMM_FEATURE_CONTROL on a thread [t] below the thread count, the
    threads before [t] were each read and dumped, no later thread is
    touched, nothing is logged about the result, and the exception of the
    read, whichever it is, is the one [check_SMM_Code_Chk_En] raises. *)
Theorem failed_read_ends_the_run
    (s : Self HW) (n : string) (t : ThreadId) (e : exn) :
  In (EvReadRegister n t (Raise e)) (events (check_SMM_Code_Chk_En cs s)) ->
  n = MSR_SMM_FEATURE_CONTROL /\
  (t < get_cpu_thread_count cs (hw s))%nat /\
  exists vals s1,
    List.length vals = t /\
    check_SMM_Code_Chk_En cs s
    = (Raise e, s1,
       EvStartTest msg_start_test
       :: flat_map evaluated (combine (range t) vals)
       ++ [EvReadRegister MSR_SMM_FEATURE_CONTROL t (Raise e)]).
Proof.
  destruct (check_cases cs s)
    as [(s1 & _ & _ & ->)
       |[(v0 & vals & s1 & _ & _ & ->)
        |(t' & vals & e' & s1 & Hlt & Hlen & _ & ->)]].
  - unfold events; simpl. intros [E|[]]. discriminate.
  - intros Hin. exfalso.
    assert (In (EvReadRegister n t (Raise e))
              (flat_map evaluated
                 (combine (range (get_cpu_thread_count cs (hw s)))
                    (v0 :: vals)))) as Hflat.
    { destruct (forallb _ _); unfold events in Hin; simpl snd in Hin;
        destruct Hin as [E|Hin]; try discriminate;
        apply in_app_or in Hin; destruct Hin as [Hin|[E|[]]];
        try exact Hin; try discriminate.
      destruct (verdict_of cs v0); discriminate. }
    apply in_evaluated_read in Hflat.
    destruct Hflat as (_ & v & Hv & _). discriminate.
  - unfold events; simpl snd. intros [E|Hin]; [discriminate|].
    apply in_app_or in Hin. destruct Hin as [Hin|[E|[]]].
    + apply in_evaluated_read in Hin.
      destruct Hin as (_ & v & Hv & _). discriminate.
    + injection E as <- <- <-.
      split; [reflexivity|]. split; [exact Hlt|].
      exists vals, s1. split; [exact Hlen|reflexivity].
Qed.

Lemma reads_of_full_run (l : list (ThreadId * RegisterValue)) (ev : event) :
  is_log ev = true ->
  reads (EvStartTest msg_start_test :: flat_map evaluated l ++ [ev])
  = reads (flat_map evaluated l).
Proof.
  intros Hlog. simpl. rewrite reads_app.
  rewrite (reads_logs [ev]) by (constructor; [exact Hlog|constructor]).
  apply app_nil_r.
Qed.

Lemma is_log_report (r : ModuleResult) : is_log (report r) = true.
Proof. now destruct r. Qed.

Lemma nth_error_reads_evaluated (vals : list RegisterValue) i v :
  nth_error vals i = Some v ->
  nth_error (reads (flat_map evaluated
                      (combine (range (List.length vals)) vals))) i
  = Some (i, Ok v).
Proof.
  intros Hv. rewrite reads_evaluated.
  assert (i < List.length vals)%nat as Hi
      by (apply nth_error_Some; congruence).
  apply nth_error_combine.
  - unfold range.
    rewrite (nth_error_nth' _ 0%nat) by (rewrite length_seq; lia).
    now rewrite seq_nth.
  - now apply map_nth_error.
Qed.

(** X7. A verdict other than ERROR speaks for every thread: if
    [check_SMM_Code_Chk_En] returns such a [V], each thread below the thread
    count was read successfully and its value has verdict [V]; so PASSED
    means SMM_Code_Chk_En = 1 and LOCK = 1 on every thread, FAILED means
    SMM_Code_Chk_En = 1 and LOCK not 1 on every thread, and WARNING means
    SMM_Code_Chk_En not 1 on every thread. *)
Theorem verdict_reflects_every_thread
    (s : Self HW) (V : ModuleResult) (tid : ThreadId) :
  outcome (check_SMM_Code_Chk_En cs s) = Ok V ->
  V <> ERROR ->
  (tid < get_cpu_thread_count cs (hw s))%nat ->
  exists regval,
    nth_error (reads (events (check_SMM_Code_Chk_En cs s))) tid
    = Some (tid, Ok regval) /\
    verdict_of cs regval = V /\
    (V = PASSED ->
     field_SMM_Code_Chk_En cs regval = 1%Z /\ field_LOCK cs regval = 1%Z) /\
    (V = FAILED ->
     field_SMM_Code_Chk_En cs regval = 1%Z /\ field_LOCK cs regval <> 1%Z) /\
    (V = WARNING -> field_SMM_Code_Chk_En cs regval <> 1%Z).
Proof.
  intros Hout HV Htid.
  destruct (check_cases cs s)
    as [(s1 & _ & _ & Hrun)
       |[(v0 & vals & s1 & Hlen & _ & Hrun)
        |(t & vals & e & s1 & _ & _ & _ & Hrun)]];
    rewrite Hrun in *; try (unfold outcome in Hout; simpl in Hout; discriminate).
  destruct (forallb _ _) eqn:Hall;
    unfold outcome in Hout; simpl in Hout; injection Hout as <-;
    [|contradiction].
  apply forallb_eq_first in Hall. rewrite Forall_forall in Hall.
  rewrite <- Hlen in *.
  destruct (nth_error (v0 :: vals) tid) as [v|] eqn:Hv.
  2:{ apply nth_error_None in Hv. simpl in Hv. lia. }
  exists v.
  assert (verdict_of cs v = verdict_of cs v0) as Hsame.
  { symmetry. apply Hall. apply in_map. exact (nth_error_In _ _ Hv). }
  split.
  - unfold events. cbn [snd].
    rewrite reads_of_full_run by apply is_log_report.
    exact (nth_error_reads_evaluated (v0 :: vals) tid v Hv).
  - split; [exact Hsame|]. rewrite <- Hsame. unfold verdict_of.
    destruct (classify_cases (field_SMM_Code_Chk_En cs v) (field_LOCK cs v))
      as [(-> & He & Hl)|[(-> & He & Hl)|(-> & He)]];
      repeat split; intros; try discriminate; assumption.
Qed.

(** X8. ERROR is returned only on a real disagreement: there are then at
    least two threads, all were read successfully, and some thread's value
    has a verdict different from that of thread 0's value. *)
Theorem ERROR_means_disagreement (s : Self HW) :
  outcome (check_SMM_Code_Chk_En cs s) = Ok ERROR ->
  (2 <= get_cpu_thread_count cs (hw s))%nat /\
  exists j v0 vj,
    (0 < j < get_cpu_thread_count cs (hw s))%nat /\
    nth_error (reads (events (check_SMM_Code_Chk_En cs s))) 0
    = Some (0%nat, Ok v0) /\
    nth_error (reads (events (check_SMM_Code_Chk_En cs s))) j
    = Some (j, Ok vj) /\
    verdict_of cs vj <> verdict_of cs v0.
Proof.
  intros Hout.
  destruct (check_cases cs s)
    as [(s1 & _ & _ & Hrun)
       |[(v0 & vals & s1 & Hlen & _ & Hrun)
        |(t & vals & e & s1 & _ & _ & _ & Hrun)]];
    rewrite Hrun in *; try (unfold outcome in Hout; simpl in Hout; discriminate).
  destruct (forallb _ _) eqn:Hall.
  { unfold outcome in Hout; simpl in Hout. injection Hout as Hout.
    destruct (verdict_of_not_ERROR cs v0 Hout). }
  apply forallb_false_witness in Hall. destruct Hall as (x & Hx & Hneq).
  apply In_nth_error in Hx. destruct Hx as (j & Hj).
  rewrite nth_error_map in Hj.
  destruct (nth_error (v0 :: vals) j) as [vj|] eqn:Hvj; [|discriminate].
  simpl in Hj. injection Hj as <-.
  assert (verdict_of cs vj <> verdict_of cs v0) as Hdiff.
  { intros E. rewrite E, ModuleResult_eqb_refl in Hneq. discriminate. }
  assert (j < S (List.length vals))%nat as Hlt
      by (apply (nth_error_Some (v0 :: vals)); congruence).
  assert (j <> 0%nat) as Hj0.
  { intros ->. simpl in Hvj. injection Hvj as <-. now apply Hdiff. }
  rewrite <- Hlen. split; [lia|].
  exists j, v0, vj. split; [lia|].
  unfold events. cbn [snd].
  rewrite reads_of_full_run by reflexivity.
  split; [|split; [|exact Hdiff]].
  - exact (nth_error_reads_evaluated (v0 :: vals) 0 v0 eq_refl).
  - exact (nth_error_reads_evaluated (v0 :: vals) j vj Hvj).
Qed.

(** X9. The unanimity check and the report (lines 59-74) do not depend on
    the order of the results: comparing every entry with [results[0]] gives
    the same verdict and the same log line for any rearrangement of the
    list. *)
Theorem aggregate_permutation
    (rs rs' : list ModuleResult) (s : Self HW) :
  Permutation rs rs' -> aggregate rs s = aggregate rs' s.
Proof.
  intros Hp.
  destruct rs as [|r0 rs]; destruct rs' as [|r0' rs'].
  - reflexivity.
  - destruct (Permutation_nil_cons Hp).
  - destruct (Permutation_nil_cons (Permutation_sym Hp)).
  - rewrite !aggregate_cons.
    destruct (forallb (fun x => ModuleResult_eqb x r0) (r0 :: rs)) eqn:Ha;
      destruct (forallb (fun x => ModuleResult_eqb x r0') (r0' :: rs')) eqn:Hb;
      try reflexivity.
    + apply forallb_eq_first in Ha. apply forallb_eq_first in Hb.
      inversion Hb; subst.
      pose proof (Permutation_Forall Hp Ha) as Ha'.
      inversion Ha'; subst. reflexivity.
    + exfalso. apply forallb_eq_first in Ha.
      pose proof (Permutation_Forall Hp Ha) as Ha'.
      assert (r0 = r0') as -> by (inversion Ha'; assumption).
      apply forallb_eq_first in Ha'. congruence.
    + exfalso. apply forallb_eq_first in Hb.
      pose proof (Permutation_Forall (Permutation_sym Hp) Hb) as Hb'.
      assert (r0' = r0) as -> by (inversion Hb'; assumption).
      apply forallb_eq_first in Hb'. congruence.
Qed.

(** X10. [check_SMM_Code_Chk_En] reads no register but
    MSR_SMM_FEATURE_CONTROL and no thread id outside [0, thread count). *)
Theorem reads_stay_in_range
    (s : Self HW) (n : string) (t : ThreadId) (o : result RegisterValue) :
  In (EvReadRegister n t o) (events (check_SMM_Code_Chk_En cs s)) ->
  n = MSR_SMM_FEATURE_CONTROL /\
  (t < get_cpu_thread_count cs (hw s))%nat.
Proof.
  rewrite check_run.
  pose proof (for_tid_append_events cs
                (range (get_cpu_thread_count cs (hw s))) [] s) as Hev.
  rewrite <- collect_results_eq in Hev. rewrite Forall_forall in Hev.
  assert (forall e1, e1 = events (collect_results cs s) ->
                     In (EvReadRegister n t o) e1 ->
                     n = MSR_SMM_FEATURE_CONTROL /\
                     (t < get_cpu_thread_count cs (hw s))%nat) as Hloop.
  { intros e1 -> Hin. destruct (Hev _ Hin) as [_ Hr].
    destruct (Hr n t o eq_refl) as [Hn Ht]. split; [exact Hn|].
    unfold range in Ht. rewrite in_seq in Ht. lia. }
  destruct (collect_results cs s) as [[[rs|e] s1] e1];
    unfold events at 1; simpl snd; intros [E|Hin]; try discriminate.
  - apply in_app_or in Hin. destruct Hin as [Hin|Hin].
    + exact (Hloop e1 eq_refl Hin).
    + destruct (aggregate_pure rs s1) as (_ & Hlog & _).
      rewrite Forall_forall in Hlog. specialize (Hlog _ Hin). discriminate.
  - exact (Hloop e1 eq_refl Hin).
Qed.

End further_properties.

(** ** The further properties at concrete platforms *)

Lemma result_log_of_verdict_witness :
  outcome (check_SMM_Code_Chk_En table_chipset scenario_B) = Ok FAILED /\
  filter is_log (events (check_SMM_Code_Chk_En table_chipset scenario_B))
  = [EvStartTest msg_start_test; EvLogPassedCheck msg_locked].
Proof.
  split; [reflexivity|].
  exact (proj2 (result_log_of_verdict table_chipset scenario_B FAILED
                  eq_refl)).
Defined.

Lemma raise_logs_nothing_witness :
  outcome (check_SMM_Code_Chk_En table_chipset late_failure)
  = Raise HWAccessViolationError /\
  filter is_log (events (check_SMM_Code_Chk_En table_chipset late_failure))
  = [EvStartTest msg_start_test].
Proof.
  split; [reflexivity|].
  exact (proj1 (raise_logs_nothing table_chipset late_failure
                  HWAccessViolationError eq_refl)).
Defined.

Lemma gate_passes_other_exceptions_witness :
  outcome (is_supported table_chipset zero_thread_platform)
  = Raise (OtherException "no such cpu thread") /\
  res (final (is_supported table_chipset zero_thread_platform)) = PASSED.
Proof.
  rewrite (gate_passes_other_exceptions table_chipset zero_thread_platform
             (OtherException "no such cpu thread") (hw zero_thread_platform)
             eq_refl);
    [split; reflexivity | discriminate].
Defined.

Lemma evaluations_read_then_dump_witness :
  exists vals,
    List.length vals = 2%nat /\
    [PASSED; FAILED] = map (verdict_of table_chipset) vals /\
    events (collect_results table_chipset scenario_C)
    = flat_map evaluated (combine (range 2) vals).
Proof.
  exact (evaluations_read_then_dump table_chipset scenario_C
           [PASSED; FAILED] scenario_C
           (events (collect_results table_chipset scenario_C)) eq_refl).
Defined.

Lemma failed_read_ends_the_run_witness :
  In (EvReadRegister MSR_SMM_FEATURE_CONTROL 1
        (Raise HWAccessViolationError))
     (events (check_SMM_Code_Chk_En table_chipset late_failure)) /\
  (1 < get_cpu_thread_count table_chipset (hw late_failure))%nat.
Proof.
  assert (In (EvReadRegister MSR_SMM_FEATURE_CONTROL 1
                (Raise HWAccessViolationError))
             (events (check_SMM_Code_Chk_En table_chipset late_failure)))
    as Hin by (vm_compute; right; right; right; left; reflexivity).
  split; [exact Hin|].
  exact (proj1 (proj2 (failed_read_ends_the_run table_chipset late_failure
                         _ _ _ Hin))).
Defined.

Lemma verdict_reflects_every_thread_witness :
  outcome (check_SMM_Code_Chk_En table_chipset scenario_A) = Ok PASSED /\
  exists regval,
    nth_error (reads (events (check_SMM_Code_Chk_En table_chipset
                                scenario_A))) 3
    = Some (3%nat, Ok regval) /\
    field_SMM_Code_Chk_En table_chipset regval = 1%Z /\
    field_LOCK table_chipset regval = 1%Z.
Proof.
  split; [reflexivity|].
  destruct (verdict_reflects_every_thread table_chipset scenario_A PASSED 3)
    as (regval & Hread & _ & Hpassed & _).
  - reflexivity.
  - discriminate.
  - simpl. lia.
  - exists regval. split; [exact Hread|]. exact (Hpassed eq_refl).
Defined.

Lemma ERROR_means_disagreement_witness :
  outcome (check_SMM_Code_Chk_En table_chipset scenario_C) = Ok ERROR /\
  (2 <= get_cpu_thread_count table_chipset (hw scenario_C))%nat.
Proof.
  split; [reflexivity|].
  exact (proj1 (ERROR_means_disagreement table_chipset scenario_C eq_refl)).
Defined.

Lemma aggregate_permutation_witness :
  Permutation [PASSED; FAILED] [FAILED; PASSED] /\
  aggregate [PASSED; FAILED] scenario_C
  = aggregate [FAILED; PASSED] scenario_C.
Proof.
  assert (Permutation [PASSED; FAILED] [FAILED; PASSED]) as Hp
      by apply perm_swap.
  split; [exact Hp|].
  exact (aggregate_permutation [PASSED; FAILED] [FAILED; PASSED] scenario_C
           Hp).
Defined.

Lemma reads_stay_in_range_witness :
  In (EvReadRegister MSR_SMM_FEATURE_CONTROL 1 (Ok regval_en_nolock))
     (events (check_SMM_Code_Chk_En table_chipset scenario_C)) /\
  (1 < get_cpu_thread_count table_chipset (hw scenario_C))%nat.
Proof.
  assert (In (EvReadRegister MSR_SMM_FEATURE_CONTROL 1 (Ok regval_en_nolock))
             (events (check_SMM_Code_Chk_En table_chipset scenario_C)))
    as Hin by (vm_compute; right; right; right; left; reflexivity).
  split; [exact Hin|].
  exact (proj2 (reads_stay_in_range table_chipset scenario_C _ _ _ Hin)).
Defined.
